(** * SSZ codec core (package ssz): entry points, context pools and the
      offset-table drafts of ssz.go

    The definitions come first: the two drafts of the offset-table protocol,
    then the contexts, the pools and the entry points, then the operations
    of the contexts, which ssz.go only refers to.  Go values are modelled as follows: [int] and [uint32] are [Z] (a [uint32] always lies in
    [0, 2^32)), [[]byte] is [list byte], an [error] is [option error] with
    [None] for [nil], and an [io.Reader] / [io.Writer] is an explicit stream
    state that every call threads through. *)

From Stdlib Require Import ZArith List Lia String Bool.
From coqutil Require Import Byte Word.LittleEndianList.
Import ListNotations.
Local Open Scope Z_scope.

(** ** Errors *)

(** The sentinel errors the drafts refer to ([ErrShortOffset],
    [ErrBadCouterOffset], [ErrMaxItemsExceeded]) are declared outside ssz.go;
    each constructor stands for one sentinel together with the values the
    [fmt.Errorf] call formats into its message.  [io_Failure] is whatever else
    a sink or source reports.  The last two are the OffsetOrderingViolation
    and BudgetExceeded of section 7 of the specification, with the values
    that were compared; no code of ssz.go raises them. *)
Inductive error : Type :=
| io_EOF
| io_ErrUnexpectedEOF
| io_Failure (msg : string)
| ErrShortOffset (limit : Z)
| ErrBadCouterOffset (first : Z)
| ErrMaxItemsExceeded (kind : string) (items maxitems : Z)
| ErrBadOffsetOrder (prev cur : Z)
| ErrBudgetExceeded (want have : Z).

(** ** Byte sources and sinks *)

(** An [io.Reader]: the bytes it will still deliver, and the condition it
    reports once they are exhausted ([io_EOF] for a stream that simply
    ends). *)
Record Reader : Type := mkReader { pending : list byte; final : error }.

(** [io.ReadFull(r, buf)] with [len(buf) = n]: exactly [n] bytes or an error.
    The error is [io.EOF] only when nothing was read; an end of stream after
    some bytes is [io.ErrUnexpectedEOF]; any other condition of the reader is
    passed on. *)
Definition io_ReadFull (r : Reader) (n : nat) : Reader * (list byte * option error) :=
  if (n <=? List.length (pending r))%nat then
    (mkReader (skipn n (pending r)) (final r), (firstn n (pending r), None))
  else
    (mkReader [] (final r),
     (pending r,
      Some match pending r, final r with
           | _ :: _, io_EOF => io_ErrUnexpectedEOF
           | _, e => e
           end)).

(** [binary.LittleEndian.Uint32(b)]:
    [uint32(b[0]) | uint32(b[1])<<8 | uint32(b[2])<<16 | uint32(b[3])<<24]. *)
Definition LittleEndian_Uint32 (b : list byte) : Z :=
  Z.lor (Z.lor (Z.lor (byte.unsigned (nth 0 b Byte.x00))
                      (Z.shiftl (byte.unsigned (nth 1 b Byte.x00)) 8))
               (Z.shiftl (byte.unsigned (nth 2 b Byte.x00)) 16))
        (Z.shiftl (byte.unsigned (nth 3 b Byte.x00)) 24).

(** ** decodeSliceLength (ssz.go, lines 87-106) *)

Definition decodeSliceLength (r : Reader) (limit : Z) : Reader * (Z * option error) :=
  (* If there are no items at all in the list, return 0 *)
  if limit =? 0 then (r, (0, None))
  (* Ensure there's at least one offset worth of data *)
  else if limit <? 4 then (r, (0, Some (ErrShortOffset limit)))
  else
    (* Decode the offset and convert it into a length *)
    let '(r', (offBuf, err)) := io_ReadFull r 4 in
    match err with
    | Some e => (r', (0, Some e))
    | None =>
        let length := LittleEndian_Uint32 offBuf in
        if Z.land length 0xff >? 0
        then (r', (0, Some (ErrBadCouterOffset length)))
        else (r', (Z.shiftr length 2, None))
    end.

(** ** DecodeSlice (ssz.go, lines 109-127) *)

Section DecodeSlice.

(** The draft ends right after it allocates [offsets], without a return
    statement.  What a finished function does from there on, given the
    source as it then is, the kind, the limit, the cap and the count, is a
    parameter of the model. *)
Variable remainder : Reader -> string -> Z -> Z -> Z -> Reader * option error.

Definition DecodeSlice (r : Reader) (kind : string) (limit maxitems : Z)
  : Reader * option error :=
  (* Parse the item count and make sure it's within limits *)
  let '(r1, (items, err)) := decodeSliceLength r limit in
  match err with
  | Some e => (r1, Some e)
  | None =>
      if items >? maxitems
      then (r1, Some (ErrMaxItemsExceeded kind items maxitems))
      else
        (* Parse all the offsets since we're doing stream processing *)
        remainder r1 kind limit maxitems items
  end.

End DecodeSlice.

(** ** Encoder and Decoder contexts *)

(** An [io.Writer]: the bytes it has accepted and, for each call of Write
    still to come, what that call will do: accept all it is given ([None]),
    or accept only the first [k] bytes and report [e] ([Some (k, e)]).  Calls
    beyond the list accept everything.  A sink may thus fail once and accept
    later writes, or fail again with another error. *)
Record Writer : Type :=
  mkWriter { sunk : list byte; faults : list (option (nat * error)) }.


(** Modelled from the spec: the struct [Encoder] is declared outside ssz.go,
    which only assigns its fields [out] and [err]; section 3 gives the
    context as "{byte sink, first error encountered}".  [None] is Go's
    [nil]. *)
Record Encoder : Type :=
  mkEncoder { enc_out : option Writer; enc_err : option error }.

(** Modelled from the spec: the struct [Decoder] is declared outside ssz.go,
    which only assigns its fields [in], [length] and [err]; section 3 gives
    the context as "{byte source, remaining byte budget for the current
    object, first error encountered}". *)
Record Decoder : Type :=
  mkDecoder { dec_in : option Reader; dec_length : Z; dec_err : option error }.

(** Field assignments [enc.out = w], [enc.err = e], and the like. *)
Definition set_enc_out (enc : Encoder) (w : option Writer) : Encoder :=
  mkEncoder w (enc_err enc).
Definition set_enc_err (enc : Encoder) (e : option error) : Encoder :=
  mkEncoder (enc_out enc) e.
Definition set_dec_in (dec : Decoder) (r : option Reader) : Decoder :=
  mkDecoder r (dec_length dec) (dec_err dec).
Definition set_dec_length (dec : Decoder) (n : Z) : Decoder :=
  mkDecoder (dec_in dec) n (dec_err dec).
Definition set_dec_err (dec : Decoder) (e : option error) : Decoder :=
  mkDecoder (dec_in dec) (dec_length dec) e.

(** ** The Object interface (ssz.go, lines 13-31) *)

(** The methods are implemented on a pointer type: [StaticSSZ] may be called
    on [nil] ([None]), and [DecodeSSZ] returns the receiver as it is after
    the call. *)
Class Object (T : Type) : Type := {
  StaticSSZ : option T -> bool;
  SizeSSZ : T -> Z;
  EncodeSSZ : T -> Encoder -> Encoder;
  DecodeSSZ : T -> Decoder -> T * Decoder
}.

(** ** The context pools (ssz.go, lines 41-55) *)

(** A [sync.Pool] used from one goroutine at a time: the contexts that were
    put back and not yet handed out again, and the value [New] makes.  This
    pool hands out the context put back last and never drops one; a
    [sync.Pool] may do otherwise, which is why the statements about Encode
    and Decode below are made for every content of the pool. *)
Record Pool (A : Type) : Type := mkPool { New : A; idle : list A }.
Arguments mkPool {A} _ _.
Arguments New {A} _.
Arguments idle {A} _.

Definition Pool_Get {A : Type} (p : Pool A) : A * Pool A :=
  match idle p with
  | [] => (New p, p)
  | x :: xs => (x, mkPool (New p) xs)
  end.

Definition Pool_Put {A : Type} (p : Pool A) (x : A) : Pool A :=
  mkPool (New p) (x :: idle p).

(** [new(Encoder)] and [new(Decoder)]: all fields zero. *)
Definition new_Encoder : Encoder := mkEncoder None None.
Definition new_Decoder : Decoder := mkDecoder None 0 None.

Definition encoderPool : Pool Encoder := mkPool new_Encoder [].
Definition decoderPool : Pool Decoder := mkPool new_Decoder [].

(** ** Encode and Decode (ssz.go, lines 57-75) *)

(** What the caller sees of its sink (source) after the call is the state of
    the stream the context is bound to. *)
Definition bound_writer (enc : Encoder) (w : Writer) : Writer :=
  match enc_out enc with Some w' => w' | None => w end.
Definition bound_reader (dec : Decoder) (r : Reader) : Reader :=
  match dec_in dec with Some r' => r' | None => r end.

(** [Encode] returns the pool as the deferred [Put] leaves it, the sink, and
    the error. *)
Definition Encode {T : Type} {O : Object T}
    (pool : Pool Encoder) (w : Writer) (obj : T)
  : Pool Encoder * Writer * option error :=
  let '(enc, pool) := Pool_Get pool in
  let enc := set_enc_err (set_enc_out enc (Some w)) None in
  let enc := EncodeSSZ obj enc in
  (Pool_Put pool enc, bound_writer enc w, enc_err enc).

(** [Decode] returns the pool as the deferred [Put] leaves it, the source,
    the object as decoded into, and the error. *)
Definition Decode {T : Type} {O : Object T}
    (pool : Pool Decoder) (r : Reader) (obj : T) (size : Z)
  : Pool Decoder * Reader * T * option error :=
  let '(dec, pool) := Pool_Get pool in
  let dec := set_dec_err (set_dec_length (set_dec_in dec (Some r)) size) None in
  let '(obj, dec) := DecodeSSZ obj dec in
  (Pool_Put pool dec, bound_reader dec r, obj, dec_err dec).

(** ** Operations of the contexts *)




(** ** Capability methods as operations on a context *)

#[local] Set Warnings "-register-all".









(** A source that holds [bs] and then ends. *)
Definition source (bs : list byte) : Reader := mkReader bs io_EOF.

(** ** Facts about the stream primitives *)

Lemma io_ReadFull_enough (r : Reader) (buf rest : list byte) :
  pending r = buf ++ rest ->
  io_ReadFull r (List.length buf) = (mkReader rest (final r), (buf, None)).
Proof.
  intros Hp. unfold io_ReadFull. rewrite Hp.
  assert (Hle : (List.length buf <=? List.length (buf ++ rest))%nat = true).
  { apply Nat.leb_le. rewrite length_app. lia. }
  rewrite Hle.
  rewrite skipn_app, firstn_app, Nat.sub_diag, skipn_all, firstn_all.
  simpl. now rewrite app_nil_r.
Qed.

Lemma LittleEndian_Uint32_le_combine (b0 b1 b2 b3 : byte) :
  LittleEndian_Uint32 [b0; b1; b2; b3] = le_combine [b0; b1; b2; b3].
Proof.
  unfold LittleEndian_Uint32. cbn [nth].
  change (le_combine [b0; b1; b2; b3]) with
    (Z.lor (byte.unsigned b0)
       (Z.shiftl (Z.lor (byte.unsigned b1)
          (Z.shiftl (Z.lor (byte.unsigned b2)
             (Z.shiftl (Z.lor (byte.unsigned b3) (Z.shiftl 0 8)) 8)) 8)) 8)).
  rewrite Z.shiftl_0_l, Z.lor_0_r.
  rewrite !Z.shiftl_lor, !Z.shiftl_shiftl by lia.
  now rewrite !Z.lor_assoc.
Qed.

Lemma LittleEndian_Uint32_range (b : list byte) :
  List.length b = 4%nat -> 0 <= LittleEndian_Uint32 b < 2 ^ 32.
Proof.
  intros Hl.
  destruct b as [|b0 [|b1 [|b2 [|b3 [|]]]]]; try discriminate Hl.
  rewrite LittleEndian_Uint32_le_combine.
  apply (le_combine_bound [b0; b1; b2; b3]).
Qed.

(** ** decodeSliceLength *)

(** What decodeSliceLength does once four bytes could be read: the check on
    the first offset is [length&0xff > 0], so the offset is refused unless
    its low byte is zero, and the count is the offset shifted right by two. *)
Lemma decodeSliceLength_first_offset (r : Reader) (limit : Z) (buf rest : list byte) :
  4 <= limit ->
  pending r = buf ++ rest ->
  List.length buf = 4%nat ->
  decodeSliceLength r limit =
    (mkReader rest (final r),
     if LittleEndian_Uint32 buf mod 256 =? 0
     then (LittleEndian_Uint32 buf / 4, None)
     else (0, Some (ErrBadCouterOffset (LittleEndian_Uint32 buf)))).
Proof.
  intros Hlim Hp Hlen. unfold decodeSliceLength.
  destruct (Z.eqb_spec limit 0) as [->|_]; [lia|].
  destruct (Z.ltb_spec limit 4) as [Hlt|_]; [lia|].
  pose proof (io_ReadFull_enough r buf rest Hp) as Hread.
  rewrite Hlen in Hread. rewrite Hread.
  change 0xff with (Z.ones 8). rewrite Z.land_ones by lia.
  change (2 ^ 8) with 256.
  pose proof (Z.mod_pos_bound (LittleEndian_Uint32 buf) 256 eq_refl) as Hm.
  destruct (Z.eqb_spec (LittleEndian_Uint32 buf mod 256) 0) as [Hz|Hnz].
  - rewrite Hz. cbn [Z.gtb Z.compare].
    rewrite Z.shiftr_div_pow2 by lia. reflexivity.
  - destruct (Z.gtb_spec (LittleEndian_Uint32 buf mod 256) 0) as [_|Hle]; [reflexivity|lia].
Qed.

(** C5: with [limit = 0] decodeSliceLength returns a count of 0 and no
    error, and the source is left as it was (nothing is consumed). *)
Theorem decodeSliceLength_limit_zero (r : Reader) :
  decodeSliceLength r 0 = (r, (0, None)).
Proof. reflexivity. Qed.

(** C6: with a limit of 1, 2 or 3 bytes decodeSliceLength fails with the
    short-offset error (which carries the limit), whatever the source. *)
Theorem decodeSliceLength_short_offset (r : Reader) (limit : Z) :
  0 < limit < 4 ->
  decodeSliceLength r limit = (r, (0, Some (ErrShortOffset limit))).
Proof.
  intros [Hpos Hlt]. unfold decodeSliceLength.
  destruct (Z.eqb_spec limit 0) as [->|_]; [lia|].
  destruct (Z.ltb_spec limit 4) as [_|Hge]; [reflexivity|lia].
Qed.

Lemma decodeSliceLength_short_offset_witness :
  0 < 3 < 4 /\
  decodeSliceLength (source [Byte.x08; Byte.x00; Byte.x00; Byte.x00]) 3 =
    (source [Byte.x08; Byte.x00; Byte.x00; Byte.x00], (0, Some (ErrShortOffset 3))).
Proof.
  split; [lia|]. apply decodeSliceLength_short_offset. lia.
Defined.

(** C10: when the source holds at least four bytes, [limit >= 4] and the
    first four bytes are the little-endian integer 0, decodeSliceLength
    returns a count of 0 with no error, and exactly those four bytes are
    consumed. *)
Theorem decodeSliceLength_zero_offset (r : Reader) (limit : Z) (buf rest : list byte) :
  4 <= limit ->
  pending r = buf ++ rest ->
  List.length buf = 4%nat ->
  LittleEndian_Uint32 buf = 0 ->
  decodeSliceLength r limit = (mkReader rest (final r), (0, None)).
Proof.
  intros Hlim Hp Hlen Hz.
  rewrite (decodeSliceLength_first_offset r limit buf rest Hlim Hp Hlen).
  rewrite Hz. reflexivity.
Qed.

Lemma decodeSliceLength_zero_offset_witness :
  decodeSliceLength
    (source [Byte.x00; Byte.x00; Byte.x00; Byte.x00; Byte.xaa; Byte.xbb]) 6 =
    (source [Byte.xaa; Byte.xbb], (0, None)).
Proof.
  apply (decodeSliceLength_zero_offset
           (source [Byte.x00; Byte.x00; Byte.x00; Byte.x00; Byte.xaa; Byte.xbb]) 6
           [Byte.x00; Byte.x00; Byte.x00; Byte.x00] [Byte.xaa; Byte.xbb]);
    [lia | reflexivity | reflexivity | reflexivity].
Defined.

(** C1: a first offset of 4 is divisible by 4 and, with [limit = 4], stands
    for a list of one element; decodeSliceLength refuses it with the
    malformed-counter-offset error, because the check masks with [0xff]. *)
Theorem decodeSliceLength_refuses_offset_4 :
  LittleEndian_Uint32 [Byte.x04; Byte.x00; Byte.x00; Byte.x00] = 4 /\
  4 mod 4 = 0 /\
  decodeSliceLength (source [Byte.x04; Byte.x00; Byte.x00; Byte.x00]) 4 =
    (source [], (0, Some (ErrBadCouterOffset 4))).
Proof. repeat split. Qed.

(** ** DecodeSlice *)

(** C3: DecodeSlice first takes the count from decodeSliceLength; when the
    count exceeds [maxitems] it fails with the maximum-items-exceeded error,
    which carries the kind, the count and the cap.  The source is left as
    decodeSliceLength left it, whatever the rest of the function would do:
    no further offset and no element is read. *)
Theorem DecodeSlice_max_items
    (remainder : Reader -> string -> Z -> Z -> Z -> Reader * option error)
    (r r1 : Reader) (kind : string) (limit maxitems items : Z) :
  decodeSliceLength r limit = (r1, (items, None)) ->
  items > maxitems ->
  DecodeSlice remainder r kind limit maxitems =
    (r1, Some (ErrMaxItemsExceeded kind items maxitems)).
Proof.
  intros Hlen Hgt. unfold DecodeSlice. rewrite Hlen.
  destruct (Z.gtb_spec items maxitems) as [_|Hle]; [reflexivity|lia].
Qed.

Lemma DecodeSlice_max_items_witness :
  DecodeSlice (fun r _ _ _ _ => (mkReader [] (final r), Some io_EOF))
    (source [Byte.x00; Byte.x01; Byte.x00; Byte.x00; Byte.x07]) "Withdrawals" 300 16 =
    (source [Byte.x07], Some (ErrMaxItemsExceeded "Withdrawals" 64 16)).
Proof.
  apply DecodeSlice_max_items; [reflexivity | lia].
Defined.


(** ** Encode and Decode *)

Lemma bind_Encoder (enc : Encoder) (w : Writer) :
  set_enc_err (set_enc_out enc (Some w)) None = mkEncoder (Some w) None.
Proof. reflexivity. Qed.

Lemma bind_Decoder (dec : Decoder) (r : Reader) (size : Z) :
  set_dec_err (set_dec_length (set_dec_in dec (Some r)) size) None =
    mkDecoder (Some r) size None.
Proof. reflexivity. Qed.

Lemma Encode_unfold {T : Type} {O : Object T}
    (pool : Pool Encoder) (w : Writer) (obj : T) :
  Encode pool w obj =
    (let enc := EncodeSSZ obj (mkEncoder (Some w) None) in
     (mkPool (New pool) (enc :: tl (idle pool)), bound_writer enc w, enc_err enc)).
Proof.
  unfold Encode. destruct pool as [new [|enc0 rest]]; reflexivity.
Qed.

Lemma Decode_unfold {T : Type} {O : Object T}
    (pool : Pool Decoder) (r : Reader) (obj : T) (size : Z) :
  Decode pool r obj size =
    (let '(obj', dec) := DecodeSSZ obj (mkDecoder (Some r) size None) in
     (mkPool (New pool) (dec :: tl (idle pool)), bound_reader dec r, obj', dec_err dec)).
Proof.
  unfold Decode.
  destruct pool as [new [|dec0 rest]];
    cbn [Pool_Get idle New]; rewrite bind_Decoder;
    destruct (DecodeSSZ obj (mkDecoder (Some r) size None)) as [obj' dec];
    reflexivity.
Qed.

(** C8: whatever the sink, source and object, and whether or not the
    object's method left an error in the context, Encode and Decode put the
    context they used back into the pool (it is the first idle context
    afterwards, the others are as Get left them) and return the error that
    this context holds, [None] when it holds none. *)
Theorem Encode_Decode_release {T : Type} {O : Object T}
    (epool : Pool Encoder) (dpool : Pool Decoder)
    (w : Writer) (r : Reader) (obj : T) (size : Z) :
  (exists enc : Encoder,
      enc = EncodeSSZ obj (mkEncoder (Some w) None) /\
      fst (fst (Encode epool w obj)) = mkPool (New epool) (enc :: tl (idle epool)) /\
      snd (Encode epool w obj) = enc_err enc) /\
  (exists dec : Decoder,
      dec = snd (DecodeSSZ obj (mkDecoder (Some r) size None)) /\
      fst (fst (fst (Decode dpool r obj size))) =
        mkPool (New dpool) (dec :: tl (idle dpool)) /\
      snd (Decode dpool r obj size) = dec_err dec).
Proof.
  split.
  - exists (EncodeSSZ obj (mkEncoder (Some w) None)).
    rewrite Encode_unfold. repeat split.
  - exists (snd (DecodeSSZ obj (mkDecoder (Some r) size None))).
    rewrite Decode_unfold.
    destruct (DecodeSSZ obj (mkDecoder (Some r) size None)) as [obj' dec].
    repeat split.
Qed.

(** C9: whatever contexts the pools hold, the object's EncodeSSZ is invoked
    on a context bound to the caller's sink with an empty error slot, and its
    DecodeSSZ on a context bound to the caller's source, with the caller's
    size as budget and an empty error slot; nothing of the context that Get
    returned takes part in the result. *)
Theorem Encode_Decode_reset {T : Type} {O : Object T}
    (epool : Pool Encoder) (dpool : Pool Decoder)
    (w : Writer) (r : Reader) (obj : T) (size : Z) :
  Encode epool w obj =
    (let enc := EncodeSSZ obj (mkEncoder (Some w) None) in
     (mkPool (New epool) (enc :: tl (idle epool)), bound_writer enc w, enc_err enc)) /\
  Decode dpool r obj size =
    (let '(obj', dec) := DecodeSSZ obj (mkDecoder (Some r) size None) in
     (mkPool (New dpool) (dec :: tl (idle dpool)), bound_reader dec r, obj', dec_err dec)).
Proof.
  split; [apply Encode_unfold | apply Decode_unfold].
Qed.

(** ** The error slot *)














(** ** Further properties of decodeSliceLength *)

Lemma io_ReadFull_short (r : Reader) (n : nat) :
  (List.length (pending r) < n)%nat ->
  io_ReadFull r n =
    (mkReader [] (final r),
     (pending r,
      Some match pending r, final r with
           | _ :: _, io_EOF => io_ErrUnexpectedEOF
           | _, e => e
           end)).
Proof.
  intros Hlt. unfold io_ReadFull.
  destruct (Nat.leb_spec n (List.length (pending r))) as [Hle|_]; [lia|reflexivity].
Qed.

Lemma split_four (l : list byte) :
  (4 <= List.length l)%nat ->
  exists buf rest, l = buf ++ rest /\ List.length buf = 4%nat.
Proof.
  intros Hl. exists (firstn 4 l), (skipn 4 l). split.
  - symmetry. apply firstn_skipn.
  - apply firstn_length_le. exact Hl.
Qed.

(** X1: once four bytes can be read ([limit >= 4]), decodeSliceLength
    accepts the first offset exactly when its low byte is zero; the count is
    then the offset divided by 4 without remainder, and otherwise the error
    carries the offset.  Either way exactly the four bytes are consumed. *)
Theorem decodeSliceLength_accepts_iff
    (r : Reader) (limit : Z) (buf rest : list byte) :
  4 <= limit ->
  pending r = buf ++ rest ->
  List.length buf = 4%nat ->
  fst (decodeSliceLength r limit) = mkReader rest (final r) /\
  (snd (snd (decodeSliceLength r limit)) = None <->
   LittleEndian_Uint32 buf mod 256 = 0) /\
  (snd (snd (decodeSliceLength r limit)) = None ->
   4 * fst (snd (decodeSliceLength r limit)) = LittleEndian_Uint32 buf) /\
  (snd (snd (decodeSliceLength r limit)) <> None ->
   snd (decodeSliceLength r limit) =
     (0, Some (ErrBadCouterOffset (LittleEndian_Uint32 buf)))).
Proof.
  intros Hlim Hp Hlen.
  rewrite (decodeSliceLength_first_offset r limit buf rest Hlim Hp Hlen).
  destruct (Z.eqb_spec (LittleEndian_Uint32 buf mod 256) 0) as [Hz|Hnz];
    cbn [fst snd].
  - repeat split; try congruence.
    intros _.
    pose proof (Z.div_mod (LittleEndian_Uint32 buf) 4 ltac:(lia)) as Hdm.
    assert (Hm4 : LittleEndian_Uint32 buf mod 4 = 0).
    { replace 256 with (4 * 64) in Hz by reflexivity.
      rewrite Z.rem_mul_r in Hz by lia.
      pose proof (Z.mod_pos_bound (LittleEndian_Uint32 buf) 4 ltac:(lia)).
      pose proof (Z.mod_pos_bound (LittleEndian_Uint32 buf / 4) 64 ltac:(lia)).
      lia. }
    lia.
  - repeat split; try congruence; try discriminate.
Qed.

Lemma decodeSliceLength_accepts_iff_witness :
  let r := source [Byte.x00; Byte.x02; Byte.x00; Byte.x00; Byte.x07] in
  fst (decodeSliceLength r 4) = mkReader [Byte.x07] (final r) /\
  (snd (snd (decodeSliceLength r 4)) = None <->
   LittleEndian_Uint32 [Byte.x00; Byte.x02; Byte.x00; Byte.x00] mod 256 = 0) /\
  (snd (snd (decodeSliceLength r 4)) = None ->
   4 * fst (snd (decodeSliceLength r 4)) =
     LittleEndian_Uint32 [Byte.x00; Byte.x02; Byte.x00; Byte.x00]) /\
  (snd (snd (decodeSliceLength r 4)) <> None ->
   snd (decodeSliceLength r 4) =
     (0, Some (ErrBadCouterOffset
                 (LittleEndian_Uint32 [Byte.x00; Byte.x02; Byte.x00; Byte.x00])))).
Proof.
  intros r.
  apply (decodeSliceLength_accepts_iff r 4
           [Byte.x00; Byte.x02; Byte.x00; Byte.x00] [Byte.x07]);
    [lia | reflexivity | reflexivity].
Defined.

(** X2: when [limit >= 4] but the source ends before four bytes could be
    read, decodeSliceLength returns the count 0 with the read error:
    [io.EOF] when the source was already empty, [io.ErrUnexpectedEOF] when
    it held one to three bytes.  The source is left drained. *)
Theorem decodeSliceLength_truncated (r : Reader) (limit : Z) :
  4 <= limit ->
  (List.length (pending r) < 4)%nat ->
  final r = io_EOF ->
  decodeSliceLength r limit =
    (mkReader [] io_EOF,
     (0, Some (if (List.length (pending r) =? 0)%nat
               then io_EOF else io_ErrUnexpectedEOF))).
Proof.
  intros Hlim Hshort Hfin. unfold decodeSliceLength.
  destruct (Z.eqb_spec limit 0) as [->|_]; [lia|].
  destruct (Z.ltb_spec limit 4) as [Hlt|_]; [lia|].
  rewrite (io_ReadFull_short r 4 Hshort), Hfin.
  destruct (pending r); reflexivity.
Qed.

Lemma decodeSliceLength_truncated_witness :
  decodeSliceLength (source [Byte.x08; Byte.x00]) 8 =
    (mkReader [] io_EOF, (0, Some io_ErrUnexpectedEOF)).
Proof.
  apply (decodeSliceLength_truncated (source [Byte.x08; Byte.x00]) 8);
    [lia | cbn; lia | reflexivity].
Defined.

(** X3: when [limit >= 4] and the source fails with an error of its own
    before four bytes could be read, decodeSliceLength returns the count 0
    and that very error. *)
Theorem decodeSliceLength_source_failure (r : Reader) (limit : Z) :
  4 <= limit ->
  (List.length (pending r) < 4)%nat ->
  final r <> io_EOF ->
  decodeSliceLength r limit = (mkReader [] (final r), (0, Some (final r))).
Proof.
  intros Hlim Hshort Hfin. unfold decodeSliceLength.
  destruct (Z.eqb_spec limit 0) as [->|_]; [lia|].
  destruct (Z.ltb_spec limit 4) as [Hlt|_]; [lia|].
  rewrite (io_ReadFull_short r 4 Hshort).
  destruct (pending r); [reflexivity|].
  destruct (final r); try reflexivity. now contradiction Hfin.
Qed.

Lemma decodeSliceLength_source_failure_witness :
  decodeSliceLength
    (mkReader [Byte.x08; Byte.x00; Byte.x00] (io_Failure "connection reset")) 8 =
    (mkReader [] (io_Failure "connection reset"),
     (0, Some (io_Failure "connection reset"))).
Proof.
  apply (decodeSliceLength_source_failure
           (mkReader [Byte.x08; Byte.x00; Byte.x00] (io_Failure "connection reset")) 8);
    [lia | cbn; lia | discriminate].
Defined.

Lemma decodeSliceLength_cases (r : Reader) (limit : Z) :
  (limit < 4 /\ fst (decodeSliceLength r limit) = r /\
   (snd (snd (decodeSliceLength r limit)) = None ->
    limit = 0 /\ fst (snd (decodeSliceLength r limit)) = 0)) \/
  (4 <= limit /\ (List.length (pending r) < 4)%nat /\
   fst (decodeSliceLength r limit) = mkReader [] (final r) /\
   snd (snd (decodeSliceLength r limit)) <> None) \/
  (4 <= limit /\
   exists buf rest,
     pending r = buf ++ rest /\ List.length buf = 4%nat /\
     decodeSliceLength r limit =
       (mkReader rest (final r),
        if LittleEndian_Uint32 buf mod 256 =? 0
        then (LittleEndian_Uint32 buf / 4, None)
        else (0, Some (ErrBadCouterOffset (LittleEndian_Uint32 buf))))).
Proof.
  destruct (Z.lt_ge_cases limit 4) as [Hlt|Hge].
  - left. split; [exact Hlt|]. unfold decodeSliceLength.
    destruct (Z.eqb_spec limit 0) as [->|Hnz]; [now repeat split|].
    destruct (Z.ltb_spec limit 4) as [_|Hge]; [|lia].
    cbn. split; [reflexivity|discriminate].
  - right. destruct (Nat.lt_ge_cases (List.length (pending r)) 4) as [Hshort|Hlong].
    + left. repeat split; [exact Hge | exact Hshort | |];
        unfold decodeSliceLength;
        destruct (Z.eqb_spec limit 0) as [->|_]; try lia;
        destruct (Z.ltb_spec limit 4) as [Hlt|_]; try lia;
        rewrite (io_ReadFull_short r 4 Hshort); cbn; [reflexivity|discriminate].
    + right. split; [exact Hge|].
      destruct (split_four (pending r) Hlong) as (buf & rest & Hp & Hlen).
      exists buf, rest. repeat split; [exact Hp | exact Hlen |].
      now apply decodeSliceLength_first_offset.
Qed.

(** X4: decodeSliceLength never takes more than four bytes from the source,
    takes none when [limit < 4], and leaves the rest of the source as it
    was. *)
Theorem decodeSliceLength_consumes_at_most_4 (r : Reader) (limit : Z) :
  exists used : list byte,
    pending r = used ++ pending (fst (decodeSliceLength r limit)) /\
    (List.length used <= 4)%nat /\
    (limit < 4 -> used = []) /\
    final (fst (decodeSliceLength r limit)) = final r.
Proof.
  destruct (decodeSliceLength_cases r limit)
    as [(Hlt & Hr & _) | [(Hge & Hshort & Hr & _) | (Hge & buf & rest & Hp & Hlen & Heq)]].
  - exists []. rewrite Hr. repeat split. cbn. lia.
  - exists (pending r). rewrite Hr. cbn [pending final].
    rewrite app_nil_r. repeat split; lia.
  - exists buf. rewrite Heq. cbn [fst pending final].
    repeat split; [exact Hp | lia | lia].
Qed.

(** X5: a count that decodeSliceLength returns without error lies in
    [0, 2^30) and is a multiple of 64; it is 0 with nothing consumed when
    [limit = 0], and otherwise [limit >= 4], exactly four bytes were consumed
    and they hold four times the count. *)
Theorem decodeSliceLength_success
    (r r' : Reader) (limit n : Z) :
  decodeSliceLength r limit = (r', (n, None)) ->
  0 <= n < 2 ^ 30 /\ n mod 64 = 0 /\
  ((limit = 0 /\ n = 0 /\ r' = r) \/
   (4 <= limit /\
    exists buf : list byte,
      pending r = buf ++ pending r' /\ List.length buf = 4%nat /\
      LittleEndian_Uint32 buf = 4 * n)).
Proof.
  intros Hres.
  destruct (decodeSliceLength_cases r limit)
    as [(Hlt & Hr & Hok) | [(Hge & Hshort & Hr & Herr) | (Hge & buf & rest & Hp & Hlen & Heq)]].
  - rewrite Hres in Hr, Hok. cbn [fst snd] in Hr, Hok.
    destruct (Hok eq_refl) as [-> ->]. subst r'.
    repeat split; try lia. left. now repeat split.
  - rewrite Hres in Herr. now contradiction Herr.
  - rewrite Hres in Heq.
    pose proof (LittleEndian_Uint32_range buf Hlen) as Hrange.
    destruct (Z.eqb_spec (LittleEndian_Uint32 buf mod 256) 0) as [Hz|Hnz];
      [|discriminate Heq].
    injection Heq as -> ->.
    assert (Hfirst : LittleEndian_Uint32 buf = 256 * (LittleEndian_Uint32 buf / 256)).
    { pose proof (Z.div_mod (LittleEndian_Uint32 buf) 256 ltac:(lia)). lia. }
    assert (Hn : LittleEndian_Uint32 buf / 4 = 64 * (LittleEndian_Uint32 buf / 256)).
    { rewrite Hfirst at 1. replace 256 with (4 * 64) at 1 by reflexivity.
      rewrite <- Z.mul_assoc, Z.mul_comm, Z.div_mul by lia. reflexivity. }
    repeat split.
    + rewrite Hn. pose proof (Z.div_pos (LittleEndian_Uint32 buf) 256). lia.
    + apply Z.div_lt_upper_bound; lia.
    + rewrite Hn, Z.mul_comm. apply Z.mod_mul. lia.
    + right. split; [exact Hge|]. exists buf. cbn [pending].
      repeat split; [exact Hp | exact Hlen | lia].
Qed.

Lemma decodeSliceLength_success_witness :
  0 <= 64 < 2 ^ 30 /\ 64 mod 64 = 0 /\
  ((256 = 0 /\ 64 = 0 /\
    source [Byte.xaa] = source [Byte.x00; Byte.x01; Byte.x00; Byte.x00; Byte.xaa]) \/
   (4 <= 256 /\
    exists buf : list byte,
      pending (source [Byte.x00; Byte.x01; Byte.x00; Byte.x00; Byte.xaa]) =
        buf ++ pending (source [Byte.xaa]) /\
      List.length buf = 4%nat /\
      LittleEndian_Uint32 buf = 4 * 64)).
Proof.
  apply (decodeSliceLength_success
           (source [Byte.x00; Byte.x01; Byte.x00; Byte.x00; Byte.xaa])
           (source [Byte.xaa]) 256 64).
  reflexivity.
Defined.

(** X6: for limits of at least 4 the result of decodeSliceLength does not
    depend on the limit: the count is not capped by what the region could
    hold. *)
Theorem decodeSliceLength_ignores_limit (r : Reader) (limit1 limit2 : Z) :
  4 <= limit1 -> 4 <= limit2 ->
  decodeSliceLength r limit1 = decodeSliceLength r limit2.
Proof.
  intros H1 H2. unfold decodeSliceLength.
  destruct (Z.eqb_spec limit1 0) as [->|_]; [lia|].
  destruct (Z.eqb_spec limit2 0) as [->|_]; [lia|].
  destruct (Z.ltb_spec limit1 4) as [Hlt|_]; [lia|].
  destruct (Z.ltb_spec limit2 4) as [Hlt|_]; [lia|].
  reflexivity.
Qed.

Lemma decodeSliceLength_ignores_limit_witness :
  decodeSliceLength (source [Byte.x00; Byte.x01; Byte.x00; Byte.x00]) 4 =
  decodeSliceLength (source [Byte.x00; Byte.x01; Byte.x00; Byte.x00]) 4096 /\
  decodeSliceLength (source [Byte.x00; Byte.x01; Byte.x00; Byte.x00]) 4 =
    (source [], (64, None)).
Proof.
  split; [|reflexivity].
  apply (decodeSliceLength_ignores_limit
           (source [Byte.x00; Byte.x01; Byte.x00; Byte.x00]) 4 4096); lia.
Defined.

(** ** Further properties of DecodeSlice *)

(** X7: an error of decodeSliceLength (short offset, malformed counter
    offset, or a read error of the source) is returned by DecodeSlice
    unchanged, with the source as decodeSliceLength left it; the cap, the
    kind and the rest of the function play no part. *)
Theorem DecodeSlice_length_error
    (remainder : Reader -> string -> Z -> Z -> Z -> Reader * option error)
    (r r1 : Reader) (kind : string) (limit maxitems n : Z) (e : error) :
  decodeSliceLength r limit = (r1, (n, Some e)) ->
  DecodeSlice remainder r kind limit maxitems = (r1, Some e).
Proof.
  intros Hlen. unfold DecodeSlice. now rewrite Hlen.
Qed.

Lemma DecodeSlice_length_error_witness :
  DecodeSlice (fun r _ _ _ _ => (r, None)) (source [Byte.x08; Byte.x00]) "Deposits" 16 4 =
    (source [], Some io_ErrUnexpectedEOF).
Proof.
  apply (DecodeSlice_length_error _ (source [Byte.x08; Byte.x00]) (source [])
           "Deposits" 16 4 0 io_ErrUnexpectedEOF).
  reflexivity.
Defined.

(** X8: an offset table that announces between 1 and 63 elements (first
    offset [4 * n] with [0 < n < 64]) is refused by DecodeSlice with the
    malformed-counter-offset error carrying that offset, after its first four
    bytes were read, whatever the limit, the cap and the rest of the
    function. *)
Theorem DecodeSlice_refuses_short_lists
    (remainder : Reader -> string -> Z -> Z -> Z -> Reader * option error)
    (r : Reader) (kind : string) (limit maxitems n : Z)
    (buf rest : list byte) :
  4 <= limit ->
  pending r = buf ++ rest ->
  List.length buf = 4%nat ->
  LittleEndian_Uint32 buf = 4 * n ->
  0 < n < 64 ->
  DecodeSlice remainder r kind limit maxitems =
    (mkReader rest (final r), Some (ErrBadCouterOffset (4 * n))).
Proof.
  intros Hlim Hp Hlen Hfirst Hn. unfold DecodeSlice.
  rewrite (decodeSliceLength_first_offset r limit buf rest Hlim Hp Hlen), Hfirst.
  rewrite (Z.mod_small (4 * n) 256) by lia.
  destruct (Z.eqb_spec (4 * n) 0) as [Hz|_]; [lia|reflexivity].
Qed.

Lemma DecodeSlice_refuses_short_lists_witness :
  DecodeSlice (fun r _ _ _ _ => (r, None))
    (source [Byte.x08; Byte.x00; Byte.x00; Byte.x00;
             Byte.x09; Byte.x00; Byte.x00; Byte.x00; Byte.xaa; Byte.xbb])
    "Deposits" 10 16 =
    (mkReader [Byte.x09; Byte.x00; Byte.x00; Byte.x00; Byte.xaa; Byte.xbb] io_EOF,
     Some (ErrBadCouterOffset (4 * 2))).
Proof.
  apply (DecodeSlice_refuses_short_lists _
           (source [Byte.x08; Byte.x00; Byte.x00; Byte.x00;
                    Byte.x09; Byte.x00; Byte.x00; Byte.x00; Byte.xaa; Byte.xbb])
           "Deposits" 10 16 2 [Byte.x08; Byte.x00; Byte.x00; Byte.x00]);
    [lia | reflexivity | reflexivity | reflexivity | lia].
Defined.

(** ** Further properties of Encode and Decode *)

(** X10: what a call did to a context does not reach the next call that
    gets this context: an Encode that follows another Encode, and a Decode
    that follows another Decode, deliver the sink, the source, the object and
    the error they deliver on the initial, empty pool, whatever the first
    call was given and whether or not it failed. *)
Theorem second_call_as_first
    {T1 T2 : Type} {O1 : Object T1} {O2 : Object T2}
    (epool : Pool Encoder) (dpool : Pool Decoder)
    (w1 w2 : Writer) (r1 r2 : Reader) (obj1 : T1) (obj2 : T2) (size1 size2 : Z) :
  (let epool1 := fst (fst (Encode epool w1 obj1)) in
   snd (fst (Encode epool1 w2 obj2)) = snd (fst (Encode encoderPool w2 obj2)) /\
   snd (Encode epool1 w2 obj2) = snd (Encode encoderPool w2 obj2)) /\
  (let dpool1 := fst (fst (fst (Decode dpool r1 obj1 size1))) in
   snd (fst (fst (Decode dpool1 r2 obj2 size2))) =
     snd (fst (fst (Decode decoderPool r2 obj2 size2))) /\
   snd (fst (Decode dpool1 r2 obj2 size2)) =
     snd (fst (Decode decoderPool r2 obj2 size2)) /\
   snd (Decode dpool1 r2 obj2 size2) = snd (Decode decoderPool r2 obj2 size2)).
Proof.
  split; cbn zeta.
  - rewrite !(Encode_unfold (T := T2)). now split.
  - rewrite !(Decode_unfold (T := T2)).
    destruct (DecodeSSZ obj2 (mkDecoder (Some r2) size2 None)) as [obj' dec].
    now repeat split.
Qed.
